(** * gpt_commit_msg: recursive diff summarisation

    Shallow embedding of [src/gpt_commit_msg.py]: the model budget table
    [max_token_count], the regex ladder used by [summarize] (the three
    patterns of its default [splitre]), the greedy chunk loop of
    [summarize], and the compression loop of [commit_message].

    The LLM client is a pair of functions: [get_num_tokens] (pure) and the
    reply of [ask]; every [ask] appends its query to a log, so the log is
    the exact sequence of requests the program sends.  Python exceptions
    are represented by their class name. *)

From Stdlib Require Import String Ascii List ZArith Lia.
From stdpp Require Import base gmap strings list.

Open Scope Z_scope.

Module GCM.

(** ** Strings and Python exceptions *)

Definition nl : string := String "010"%char EmptyString.

(** Python's ["sep".join(l)] is [String.concat sep l]. *)
Definition sep2 : string := nl +:+ nl.

Definition py_exn := string.
Definition KeyError : py_exn := "KeyError".
Definition IndexError : py_exn := "IndexError".
Definition RecursionError : py_exn := "RecursionError".

(** ** [max_token_count] (lines 14-17) *)

Definition max_token_count : gmap string Z :=
  <["gpt-4" := 8192]> (<["gpt-3.5-turbo" := 4097]> ∅).

(** [max_token_count[name]]: a missing key raises [KeyError]. *)
Definition dict_lookup (name : string) : py_exn + Z :=
  match max_token_count !! name with
  | Some n => inr n
  | None => inl KeyError
  end.

(** ** The state and error monad

    The state is the log of queries sent to the LLM; an exception keeps
    the log as it was when it was raised. *)

Definition M (A : Type) : Type := list string -> (py_exn + A) * list string.

Definition ret {A} (a : A) : M A := fun log => (inr a, log).
Definition raise {A} (e : py_exn) : M A := fun log => (inl e, log).
Definition bind {A B} (m : M A) (k : A -> M B) : M B := fun log =>
  match m log with
  | (inl e, log') => (inl e, log')
  | (inr a, log') => k a log'
  end.

Notation "'let*' x := m 'in' k" := (bind m (fun x => k))
  (at level 200, x name, m at level 100, k at level 200).

(** ** The delimiter ladder (default [splitre], lines 50-54)

    [DiffHeader] is [r"^(diff )"], [BlankLine] is ["^$"] and [Newline]
    is ["\n"].  [re.split] is called with [re.MULTILINE]; [re.match] is
    called without flags. *)

Inductive rung := DiffHeader | BlankLine | Newline.

Definition default_splitre : list rung := [DiffHeader; BlankLine; Newline].

(** Prepend a character to the first piece of a split. *)
Definition push (c : ascii) (ps : list string) : list string :=
  match ps with
  | [] => [String c EmptyString]
  | p :: ps' => String c p :: ps'
  end.

(** [re.split(r"^(diff )", s, flags=re.MULTILINE)]: the captured group is
    kept as a piece of its own.  [bol] holds at the start of a line. *)
Fixpoint split_diff (bol : bool) (s : string) {struct s} : list string :=
  match s with
  | EmptyString => [EmptyString]
  | String c s' =>
      match s' with
      | String c1 (String c2 (String c3 (String c4 rest))) =>
          if bol && Ascii.eqb c "d" && Ascii.eqb c1 "i" && Ascii.eqb c2 "f"
             && Ascii.eqb c3 "f" && Ascii.eqb c4 " "
          then EmptyString :: "diff "%string :: split_diff false rest
          else push c (split_diff (Ascii.eqb c "010") s')
      | _ => push c (split_diff (Ascii.eqb c "010") s')
      end
  end%char.

(** [re.split("^$", s, flags=re.MULTILINE)]: an empty match at every
    position that starts a line and ends one (end of text or before a
    newline). *)
Fixpoint split_blank (bol : bool) (s : string) : list string :=
  match s with
  | EmptyString => if bol then [EmptyString; EmptyString] else [EmptyString]
  | String c s' =>
      let rest := push c (split_blank (Ascii.eqb c "010") s') in
      if bol && Ascii.eqb c "010" then EmptyString :: rest else rest
  end%char.

(** [re.split("\n", s)]: the newlines are dropped. *)
Fixpoint split_nl (s : string) : list string :=
  match s with
  | EmptyString => [EmptyString]
  | String c s' =>
      if Ascii.eqb c "010" then EmptyString :: split_nl s' else push c (split_nl s')
  end%char.

Definition re_split (r : rung) (s : string) : list string :=
  match r with
  | DiffHeader => split_diff true s
  | BlankLine => split_blank true s
  | Newline => split_nl s
  end.

(** [re.match(pattern, part)] without [re.MULTILINE]: [^] only at the
    start, [$] at the end or before a final newline. *)
Definition re_match (r : rung) (s : string) : bool :=
  match r with
  | DiffHeader => String.prefix "diff "%string s
  | BlankLine =>
      match s with
      | EmptyString => true
      | String c EmptyString => Ascii.eqb c "010"
      | _ => false
      end
  | Newline =>
      match s with
      | String c _ => Ascii.eqb c "010"
      | EmptyString => false
      end
  end%char.

(** [combined_parts[-1] += part] *)
Definition add_to_last (l : list string) (part : string) : list string :=
  match l with
  | [] => [part]
  | _ => removelast l ++ [List.last l "" +:+ part]
  end.

(** Lines 65-72: a piece starts a new part when it matches the pattern or
    when it is the first one; otherwise it is glued to the previous part. *)
Definition recombine (r : rung) (parts : list string) : list string :=
  fold_left
    (fun combined_parts part =>
       if re_match r part || bool_decide (combined_parts = [])
       then combined_parts ++ [part]
       else add_to_last combined_parts part)
    parts [].

(** Lines 64-73. *)
Definition split_parts (r : rung) (text : string) : list string :=
  recombine r (re_split r text).

(** ** The program

    [get_num_tokens] is the tokenizer of the LLM client, [answer] the reply
    of [llm.ask], [model] is [args.model]. *)

Section Program.

Variable get_num_tokens : string -> Z.
Variable answer : string -> string.
Variable model : string.

(** [llm.ask(q)]: one request to the LLM, recorded in the log. *)
Definition ask (q : string) : M string :=
  fun log => (inr (answer q), log ++ [q]).

(** [max_token_count[args.model]] *)
Definition limit : M Z :=
  match dict_lookup model with
  | inl e => raise e
  | inr n => ret n
  end.

(** [sum(llm.get_num_tokens(c) for c in chunk)] *)
Definition sum_tokens (chunk : list string) : Z :=
  fold_left (fun acc c => acc + get_num_tokens c) chunk 0.

(** Lines 81-87: the chunk is sent to the LLM, or summarised again with
    the rest of the ladder ([rec]) when its own token count is over the
    budget. *)
Definition flush (rec : string -> M (list string)) (lim : Z) (prompt : string)
    (chunk : list string) : M (list string) :=
  let text := String.concat "" chunk in
  if lim <? get_num_tokens text then rec text
  else let* a := ask (prompt +:+ text) in ret [a].

(** Lines 77-91: the loop over [parts[1:]] with its state [summaries],
    [chunk] and [chunk_tcount]. *)
Fixpoint chunk_loop (rec : string -> M (list string)) (lim : Z) (prompt : string)
    (summaries chunk : list string) (chunk_tcount : Z) (parts : list string)
    : M (list string) :=
  match parts with
  | [] => ret summaries
  | part :: parts' =>
      let part_tcount := get_num_tokens part in
      if lim <=? chunk_tcount + part_tcount then
        let* s := flush rec lim prompt chunk in
        chunk_loop rec lim prompt (summaries ++ s) [part]
          (sum_tokens [] + part_tcount) parts'
      else
        chunk_loop rec lim prompt summaries (chunk ++ [part])
          (chunk_tcount + part_tcount) parts'
  end.

(** Lines 57-91 for one call.  [next] is [None] when [splitre] is empty,
    otherwise its first pattern and the recursive call on [splitre[1:]]. *)
Definition summarize_body (next : option (rung * (string -> M (list string))))
    (text prompt : string) : M (list string) :=
  let query := prompt +:+ text in
  let tcount := get_num_tokens query in
  let* lim := limit in
  if tcount <=? lim then
    let* a := ask (prompt +:+ text) in ret [a]
  else
    match next with
    | None => raise IndexError   (* splitre[0] *)
    | Some (r, rec) =>
        match split_parts r text with
        | [] => raise IndexError   (* parts[0] *)
        | p0 :: rest =>
            chunk_loop rec lim prompt [] [p0] (get_num_tokens p0) rest
        end
    end.

Fixpoint summarize (text : string) (splitre : list rung) (prompt : string)
    {struct splitre} : M (list string) :=
  match splitre with
  | [] => summarize_body None text prompt
  | r :: rest => summarize_body (Some (r, fun t => summarize t rest prompt)) text prompt
  end.

Definition detail_prompt : string :=
  "Make an unordered list of the effects of every change in this diff." +:+ nl +:+ nl.

(** The compression prompt of line 41, with its ["n\n"]. *)
Definition compress_prompt : string :=
  "Make an unordered list that summarizes the changes described below.n" +:+ nl.

Definition more_detail : string := "## More Detail".

(** Lines 36-43.  The [while True] loop may run forever, so it is given
    [fuel] rounds; [None] means the loop had not stopped after them. *)
Fixpoint compress_loop (fuel : nat) (prompt : string) (result : list string)
    (overall_summary : string) : M (option (list string * string)) :=
  match fuel with
  | O => ret None
  | S fuel' =>
      let* lim := limit in
      if get_num_tokens (prompt +:+ overall_summary) <=? lim then
        ret (Some (result, overall_summary))
      else
        let* summaries := summarize overall_summary default_splitre compress_prompt in
        compress_loop fuel' prompt (summaries ++ [more_detail] ++ result)
          (String.concat sep2 summaries)
  end.

(** Lines 24-46. *)
Definition commit_message (fuel : nat) (diff prompt : string) : M (option string) :=
  let tcount := get_num_tokens (prompt +:+ diff) in
  let* lim := limit in
  if tcount <=? lim then
    let* a := ask (prompt +:+ diff) in ret (Some a)
  else
    let* summaries := summarize diff default_splitre detail_prompt in
    let result := [more_detail] ++ summaries in
    let overall_summary := String.concat sep2 summaries in
    let* o := compress_loop fuel prompt result overall_summary in
    match o with
    | None => ret None
    | Some (result', overall') =>
        let* a := ask (prompt +:+ overall') in
        ret (Some (String.concat sep2 (a :: result')))
    end.

(** *** Views of the code used in the proofs *)

(** The grouping formed by the loop of lines 75-90 when it is run on its
    own: the chunks it closes, in order, and the chunk still open when the
    loop ends. *)
Fixpoint assemble (lim : Z) (chunk : list string) (chunk_tcount : Z)
    (parts : list string) : list (list string) * list string :=
  match parts with
  | [] => ([], chunk)
  | part :: parts' =>
      let part_tcount := get_num_tokens part in
      if lim <=? chunk_tcount + part_tcount then
        let '(closed, open_chunk) :=
          assemble lim [part] (sum_tokens [] + part_tcount) parts' in
        (chunk :: closed, open_chunk)
      else assemble lim (chunk ++ [part]) (chunk_tcount + part_tcount) parts'
  end.

(** All the chunks the loop forms from [parts], the open one last. *)
Definition chunks_of (lim : Z) (parts : list string) : list (list string) :=
  match parts with
  | [] => []
  | p0 :: rest =>
      let '(closed, open_chunk) := assemble lim [p0] (get_num_tokens p0) rest in
      closed ++ [open_chunk]
  end.

(** Flushing a list of chunks one after the other. *)
Fixpoint flush_all (rec : string -> M (list string)) (lim : Z) (prompt : string)
    (summaries : list string) (chunks : list (list string)) : M (list string) :=
  match chunks with
  | [] => ret summaries
  | c :: cs =>
      let* s := flush rec lim prompt c in
      flush_all rec lim prompt (summaries ++ s) cs
  end.

(** Greedy assembly: inside a chunk, every part after the first was added
    while the running total plus that part stayed under the budget. *)
Definition sum_lt_within (lim : Z) (c : list string) : Prop :=
  forall a y b, c = a ++ y :: b -> a <> [] ->
    sum_tokens a + get_num_tokens y < lim.

(** Greedy assembly: a chunk was closed because its total plus the first
    part of the next chunk reaches the budget. *)
Fixpoint closed_at_budget (lim : Z) (cs : list (list string)) : Prop :=
  match cs with
  | [] => True
  | c :: rest =>
      match rest with
      | [] => True
      | d :: _ =>
          match d with
          | q :: _ => lim <= sum_tokens c + get_num_tokens q
          | [] => False
          end /\ closed_at_budget lim rest
      end
  end.

(** [summarize] run with at most [n] nested Python frames: a call that
    would need one more frame raises [RecursionError]. *)
Fixpoint summarize_frames (n : nat) (text : string) (splitre : list rung)
    (prompt : string) : M (list string) :=
  match n with
  | O => raise RecursionError
  | S n' =>
      match splitre with
      | [] => summarize_body None text prompt
      | r :: rest =>
          summarize_body (Some (r, fun t => summarize_frames n' t rest prompt))
            text prompt
      end
  end.

(** The result document as the spec lays it out, from the list of summary
    layers, newest first: each layer sits above the older ones, followed by
    a "## More Detail" heading; the first layer is preceded by one. *)
Fixpoint layered_document (layers : list (list string)) : list string :=
  match layers with
  | [] => []
  | [s0] => more_detail :: s0
  | s :: older => s ++ more_detail :: layered_document older
  end.

(** The compression passes of the spec (section 4.5, step 4): another pass
    runs exactly while the joined newest layer does not fit with [prompt]. *)
Inductive compression_passes (lim : Z) (prompt : string)
  : list (list string) -> list string -> list (list string) -> list string -> Prop :=
| passes_stop s older log :
    get_num_tokens (prompt +:+ String.concat sep2 s) <= lim ->
    compression_passes lim prompt (s :: older) log (s :: older) log
| passes_step s older log s' log' final logf :
    lim < get_num_tokens (prompt +:+ String.concat sep2 s) ->
    summarize (String.concat sep2 s) default_splitre compress_prompt log = (inr s', log') ->
    compression_passes lim prompt (s' :: s :: older) log' final logf ->
    compression_passes lim prompt (s :: older) log final logf.

(** A request sent by [summarize]: the prompt followed by a text that fits
    the budget together with the prompt (line 60) or on its own (line 83). *)
Definition request_ok (lim : Z) (prompt q : string) : Prop :=
  exists t, q = prompt +:+ t /\
    (get_num_tokens (prompt +:+ t) <= lim \/ get_num_tokens t <= lim).

End Program.

(** The text with its newlines removed. *)
Fixpoint drop_newlines (s : string) : string :=
  match s with
  | EmptyString => EmptyString
  | String c s' => if Ascii.eqb c "010" then drop_newlines s' else String c (drop_newlines s')
  end%char.

(** ** [log] (lines 19-22)

    The file system maps a path to the file's contents.  A [Path] object
    is always true, so only [None] skips the write; mode ["a"] creates a
    missing file. *)
Definition log (files : gmap string string) (path : option string) (text : string)
    : gmap string string :=
  match path with
  | None => files
  | Some p =>
      let old := match files !! p with Some c => c | None => "" end in
      <[p := old +:+ (text +:+ nl)]> files
  end.

(** ** [main] (lines 131-167)

    The diff read from git or stdin and the parsed arguments are inputs;
    the diff is ASCII text, so [len] is [String.length].  The result is the
    exit code with the text handed to printing: ["Empty diff."], or the
    message before the line wrapping of lines 160-163, which is not
    modelled (nor is the counter printed by lines 164-165).  [None] means
    the compression loop had not stopped after [fuel] rounds. *)


Section Main.

Variable get_num_tokens : string -> Z.
Variable answer : string -> string.


End Main.

(** ** Concrete LLM clients used to evaluate the program *)

(** A tokenizer that counts 1000 tokens per character, so that the
    budgets of [max_token_count] are reached by short texts. *)
Definition tok_k (s : string) : Z := 1000 * Z.of_nat (String.length s).

(** A tokenizer that counts one token per character. *)
Definition tok_len (s : string) : Z := Z.of_nat (String.length s).

(** An LLM that repeats its query. *)
Definition echo (q : string) : string := q.

(** An LLM that always replies with the same one-line list. *)
Definition reply_diff (q : string) : string := "diff x".

(** Concrete diffs. *)
Definition diff_three_files : string :=
  "diff a" +:+ nl +:+ "diff b" +:+ nl +:+ "diff c".
Definition diff_two_files : string := "diff a" +:+ nl +:+ "diff b".
Definition diff_four_files : string :=
  "diff a" +:+ nl +:+ "diff b" +:+ nl +:+ "diff c" +:+ nl +:+ "diff d".
(** One line with no delimiter of the ladder in it. *)
Definition one_line : string := "aaaaaaaaa".

End GCM.

Import GCM.

(** ** The splitting on small texts (as Python's [re] module gives it) *)

Example split_parts_diff :
  split_parts DiffHeader ("a" +:+ nl +:+ "diff x" +:+ nl +:+ "diff y")
  = ["a" +:+ nl; "diff x" +:+ nl; "diff y"].
Proof. reflexivity. Qed.

Example split_blank_py :
  re_split BlankLine ("a" +:+ nl +:+ nl +:+ nl +:+ "b")
  = ["a" +:+ nl; nl; nl +:+ "b"].
Proof. reflexivity. Qed.

(** ** Lemmas on strings *)

Arguments String.append : simpl nomatch.

Lemma str_app_nil_r (s : string) : s +:+ "" = s.
Proof. induction s; simpl; congruence. Qed.

Lemma str_app_assoc (a b c : string) : a +:+ (b +:+ c) = (a +:+ b) +:+ c.
Proof. induction a; simpl; congruence. Qed.

Lemma concat0_cons (x : string) (xs : list string) :
  String.concat "" (x :: xs) = x +:+ String.concat "" xs.
Proof. destruct xs; simpl; [by rewrite str_app_nil_r | reflexivity]. Qed.

Lemma concat0_app (l1 l2 : list string) :
  String.concat "" (l1 ++ l2) = String.concat "" l1 +:+ String.concat "" l2.
Proof.
  induction l1 as [|x l1 IH]; [reflexivity|].
  rewrite <- app_comm_cons, !concat0_cons, IH. apply str_app_assoc.
Qed.

Lemma concat0_push (c : ascii) (ps : list string) :
  String.concat "" (push c ps) = String c (String.concat "" ps).
Proof. destruct ps; [reflexivity|]. unfold push. by rewrite !concat0_cons. Qed.

Lemma add_to_last_concat (l : list string) (part : string) :
  String.concat "" (add_to_last l part) = String.concat "" l +:+ part.
Proof.
  destruct l as [|x l']; [reflexivity|].
  change (add_to_last (x :: l') part)
    with (removelast (x :: l') ++ [List.last (x :: l') "" +:+ part]).
  transitivity (String.concat "" (removelast (x :: l') ++ [List.last (x :: l') ""]) +:+ part).
  - rewrite !concat0_app, <- str_app_assoc. reflexivity.
  - rewrite <- app_removelast_last; [reflexivity|discriminate].
Qed.

Lemma recombine_concat (r : rung) (parts : list string) :
  String.concat "" (recombine r parts) = String.concat "" parts.
Proof.
  unfold recombine.
  enough (H : forall acc, String.concat "" (fold_left
    (fun combined_parts part =>
       if re_match r part || bool_decide (combined_parts = [])
       then combined_parts ++ [part]
       else add_to_last combined_parts part) parts acc)
    = String.concat "" acc +:+ String.concat "" parts) by (rewrite H; reflexivity).
  induction parts as [|p ps IH]; intros acc; cbn [fold_left].
  - symmetry. apply str_app_nil_r.
  - rewrite IH, concat0_cons, str_app_assoc. f_equal.
    destruct (_ || _).
    + rewrite concat0_app. reflexivity.
    + apply add_to_last_concat.
Qed.

Lemma split_diff_concat (s0 : string) (b0 : bool) :
  String.concat "" (split_diff b0 s0) = s0.
Proof.
  enough (H : forall n s bol, (String.length s < n)%nat ->
                String.concat "" (split_diff bol s) = s) by (eapply H; eauto).
  induction n as [|n IH]; intros [|c s'] bol Hn; simpl in Hn; try lia; [reflexivity|].
  assert (Hpush : forall b, String.concat "" (push c (split_diff b s')) = String c s').
  { intros b. rewrite concat0_push. f_equal. apply IH. lia. }
  simpl split_diff.
  destruct s' as [|c1 [|c2 [|c3 [|c4 rest]]]]; try apply Hpush.
  destruct (bol && _ && _ && _ && _ && _) eqn:E; [|apply Hpush].
  apply andb_prop in E as [E E4]. apply andb_prop in E as [E E3].
  apply andb_prop in E as [E E2]. apply andb_prop in E as [E E1].
  apply andb_prop in E as [_ E0].
  apply Ascii.eqb_eq in E0, E1, E2, E3, E4. subst.
  rewrite !concat0_cons, IH; [reflexivity|]. simpl in Hn. lia.
Qed.

Lemma split_blank_concat (s : string) (bol : bool) :
  String.concat "" (split_blank bol s) = s.
Proof.
  revert bol. induction s as [|c s' IH]; intros bol; simpl.
  - by destruct bol.
  - destruct (bol && _).
    + rewrite concat0_cons, concat0_push, IH. reflexivity.
    + rewrite concat0_push, IH. reflexivity.
Qed.

(** ** The chunk loop *)

Section Proofs.

Variable get_num_tokens : string -> Z.
Variable answer : string -> string.
Variable model : string.

Local Abbreviation ntok := get_num_tokens.
Local Abbreviation sum_tokens := (sum_tokens get_num_tokens).
Local Abbreviation assemble := (assemble get_num_tokens).
Local Abbreviation chunks_of := (chunks_of get_num_tokens).
Local Abbreviation sum_lt_within := (sum_lt_within get_num_tokens).
Local Abbreviation closed_at_budget := (closed_at_budget get_num_tokens).
Local Abbreviation flush := (flush get_num_tokens answer).
Local Abbreviation flush_all := (flush_all get_num_tokens answer).
Local Abbreviation chunk_loop := (chunk_loop get_num_tokens answer).

Lemma sum_tokens_acc (l : list string) (acc : Z) :
  fold_left (fun acc c => acc + ntok c) l acc = acc + sum_tokens l.
Proof.
  unfold GCM.sum_tokens. revert acc.
  induction l as [|x l IH]; intros acc; simpl; [lia|].
  rewrite IH, (IH (0 + ntok x)). lia.
Qed.

Lemma sum_tokens_snoc (l : list string) (y : string) :
  sum_tokens (l ++ [y]) = sum_tokens l + ntok y.
Proof. unfold GCM.sum_tokens at 1. rewrite fold_left_app. simpl. reflexivity. Qed.

Lemma sum_tokens_single (y : string) : sum_tokens [y] = ntok y.
Proof. unfold GCM.sum_tokens. simpl. lia. Qed.

Lemma app_cons_snoc_inv {A} (a b c : list A) (y z : A) :
  a ++ y :: b = c ++ [z] ->
  (a = c /\ y = z /\ b = []) \/ (exists b', b = b' ++ [z] /\ c = a ++ y :: b').
Proof.
  destruct b as [|x b] using rev_ind; intros H.
  - left. apply app_inj_tail in H as [-> ->]. auto.
  - right. rewrite app_comm_cons, app_assoc in H.
    apply app_inj_tail in H as [<- ->]. eauto.
Qed.

Lemma sum_lt_within_single (lim : Z) (p : string) : sum_lt_within lim [p].
Proof.
  intros a y b H Ha. destruct a as [|x [|x' a]]; [done| |]; simpl in H; inversion H.
Qed.

Lemma sum_lt_within_snoc (lim : Z) (chunk : list string) (part : string) :
  sum_lt_within lim chunk -> sum_tokens chunk + ntok part < lim ->
  sum_lt_within lim (chunk ++ [part]).
Proof.
  intros Hc Hlt a y b H Ha. symmetry in H.
  apply app_cons_snoc_inv in H as [(-> & -> & ->)|(b' & -> & ->)]; [done|].
  by apply (Hc a y b').
Qed.

(** The invariant of the loop of lines 77-90, for any starting chunk. *)
Lemma assemble_spec (lim : Z) (parts chunk : list string) (tc : Z) :
  chunk <> [] -> tc = sum_tokens chunk -> sum_lt_within lim chunk ->
  let '(closed, open_chunk) := assemble lim chunk tc parts in
  List.concat (closed ++ [open_chunk]) = chunk ++ parts /\
  Forall (fun c => c <> []) (closed ++ [open_chunk]) /\
  Forall (sum_lt_within lim) (closed ++ [open_chunk]) /\
  closed_at_budget lim (closed ++ [open_chunk]) /\
  exists tail, hd [] (closed ++ [open_chunk]) = chunk ++ tail.
Proof.
  revert chunk tc. induction parts as [|part parts IH]; intros chunk tc Hne Htc Hw.
  - simpl. rewrite !app_nil_r. repeat split; auto. exists []. by rewrite app_nil_r.
  - cbn [GCM.assemble]. destruct (lim <=? tc + ntok part) eqn:E.
    + apply Z.leb_le in E.
      specialize (IH [part] (sum_tokens [] + ntok part)).
      destruct (assemble lim [part] (sum_tokens [] + ntok part) parts) as [cl op].
      destruct IH as (Hcat & Hne' & Hw' & Hb & tail & Hhd);
        [discriminate|reflexivity|apply sum_lt_within_single|].
      repeat split.
      * simpl. rewrite Hcat. reflexivity.
      * constructor; auto.
      * constructor; auto.
      * simpl. destruct (cl ++ [op]) as [|d rest'] eqn:Hcl;
          [destruct cl; discriminate|].
        simpl in Hhd. subst d. split; [lia|exact Hb].
      * exists []. simpl. by rewrite app_nil_r.
    + apply Z.leb_gt in E.
      specialize (IH (chunk ++ [part]) (tc + ntok part)).
      destruct (assemble lim (chunk ++ [part]) (tc + ntok part) parts) as [cl op].
      destruct IH as (Hcat & Hne' & Hw' & Hb & tail & Hhd).
      * by destruct chunk.
      * rewrite sum_tokens_snoc. lia.
      * apply sum_lt_within_snoc; [exact Hw|lia].
      * repeat split; auto.
        -- rewrite Hcat, <- app_assoc. reflexivity.
        -- exists (part :: tail). rewrite Hhd, <- app_assoc. reflexivity.
Qed.

(** The grouping of a non-empty list of parts by the loop. *)
Lemma chunks_of_spec (lim : Z) (parts : list string) :
  List.concat (chunks_of lim parts) = parts /\
  Forall (fun c => c <> []) (chunks_of lim parts) /\
  Forall (sum_lt_within lim) (chunks_of lim parts) /\
  closed_at_budget lim (chunks_of lim parts).
Proof.
  destruct parts as [|p0 rest]; [simpl; auto|].
  pose proof (assemble_spec lim rest [p0] (ntok p0)) as H.
  unfold GCM.chunks_of.
  destruct (assemble lim [p0] (ntok p0) rest) as [cl op].
  destruct H as (Hcat & Hne & Hw & Hb & _);
    [discriminate|rewrite sum_tokens_single; reflexivity|apply sum_lt_within_single|].
  auto.
Qed.

(** The loop of lines 77-90 flushes exactly the chunks it closes, in
    order; the chunk left open at the end is not flushed. *)
Lemma chunk_loop_assemble (rec : string -> M (list string)) (lim : Z) (prompt : string)
    (parts summaries chunk : list string) (tc : Z) (log : list string) :
  chunk_loop rec lim prompt summaries chunk tc parts log
  = flush_all rec lim prompt summaries (assemble lim chunk tc parts).1 log.
Proof.
  revert summaries chunk tc log.
  induction parts as [|part parts IH]; intros summaries chunk tc log; [reflexivity|].
  cbn [GCM.chunk_loop GCM.assemble].
  destruct (lim <=? tc + ntok part).
  - destruct (assemble lim [part] (sum_tokens [] + ntok part) parts) as [cl op] eqn:Ha.
    simpl. unfold bind. destruct (flush rec lim prompt chunk log) as [[e|s] log']; [reflexivity|].
    rewrite IH, Ha. reflexivity.
  - apply IH.
Qed.

(** ** [summarize] *)

Local Abbreviation ask := (ask answer).
Local Abbreviation limit := (limit model).
Local Abbreviation summarize_body := (summarize_body get_num_tokens answer model).
Local Abbreviation summarize := (summarize get_num_tokens answer model).
Local Abbreviation summarize_frames := (summarize_frames get_num_tokens answer model).
Local Abbreviation compress_loop := (compress_loop get_num_tokens answer model).
Local Abbreviation commit_message := (commit_message get_num_tokens answer model).
Local Abbreviation compression_passes := (compression_passes get_num_tokens answer model).

Lemma limit_bind {A} (lim : Z) (k : Z -> M A) (log : list string) :
  dict_lookup model = inr lim -> bind limit k log = k lim log.
Proof. intros H. unfold GCM.limit. rewrite H. reflexivity. Qed.

Lemma limit_error {A} (k : Z -> M A) (log : list string) :
  dict_lookup model = inl KeyError -> bind limit k log = (inl KeyError, log).
Proof. intros H. unfold GCM.limit. rewrite H. reflexivity. Qed.

Lemma dict_lookup_error (name : string) (e : py_exn) :
  dict_lookup name = inl e -> e = KeyError.
Proof. unfold dict_lookup. destruct (_ !! name); congruence. Qed.

Lemma flush_ext (f g : string -> M (list string)) (lim : Z) (prompt : string)
    (chunk : list string) (log : list string) :
  (forall t log, f t log = g t log) ->
  flush f lim prompt chunk log = flush g lim prompt chunk log.
Proof. intros Hfg. unfold GCM.flush. destruct (_ <? _); auto. Qed.

Lemma chunk_loop_ext (f g : string -> M (list string)) (lim : Z) (prompt : string)
    (parts summaries chunk : list string) (tc : Z) (log : list string) :
  (forall t log, f t log = g t log) ->
  chunk_loop f lim prompt summaries chunk tc parts log
  = chunk_loop g lim prompt summaries chunk tc parts log.
Proof.
  intros Hfg. revert summaries chunk tc log.
  induction parts as [|part parts IH]; intros summaries chunk tc log; [reflexivity|].
  cbn [GCM.chunk_loop]. destruct (_ <=? _); [|apply IH].
  unfold bind. rewrite (flush_ext f g) by exact Hfg.
  destruct (flush g lim prompt chunk log) as [[e|s] log']; [reflexivity|apply IH].
Qed.

Lemma summarize_body_ext (r : rung) (f g : string -> M (list string))
    (text prompt : string) (log : list string) :
  (forall t log, f t log = g t log) ->
  summarize_body (Some (r, f)) text prompt log = summarize_body (Some (r, g)) text prompt log.
Proof.
  intros Hfg. unfold GCM.summarize_body, bind.
  destruct (limit log) as [[e|lim] log']; [reflexivity|].
  destruct (_ <=? _); [reflexivity|].
  destruct (split_parts r text); [reflexivity|]. by apply chunk_loop_ext.
Qed.

(** A property of the exceptions a computation may raise. *)
Lemma chunk_loop_raises (P : py_exn -> Prop) (rec : string -> M (list string))
    (lim : Z) (prompt : string) (parts summaries chunk : list string) (tc : Z)
    (log log' : list string) (e : py_exn) :
  (forall t log log' e, rec t log = (inl e, log') -> P e) ->
  chunk_loop rec lim prompt summaries chunk tc parts log = (inl e, log') -> P e.
Proof.
  intros Hrec. revert summaries chunk tc log.
  induction parts as [|part parts IH]; intros summaries chunk tc log; [discriminate|].
  cbn [GCM.chunk_loop]. destruct (_ <=? _); [|apply IH].
  unfold bind. destruct (flush rec lim prompt chunk log) as [[e'|s] log''] eqn:Hf.
  - intros [= -> _]. unfold GCM.flush in Hf. destruct (_ <? _); [eauto|discriminate].
  - apply IH.
Qed.

Lemma summarize_raises (splitre : list rung) (text prompt : string)
    (log log' : list string) (e : py_exn) :
  summarize text splitre prompt log = (inl e, log') -> e = IndexError \/ e = KeyError.
Proof.
  revert text log log' e. induction splitre as [|r rest IH]; intros text log log' e;
    cbn [GCM.summarize]; unfold GCM.summarize_body, bind, GCM.limit;
    destruct (dict_lookup model) as [e'|lim] eqn:Hd;
    try (intros [= <- _]; right; eapply dict_lookup_error; eauto);
    simpl; destruct (_ <=? _); try discriminate.
  - intros [= <- _]. auto.
  - destruct (split_parts r text) as [|p0 ps]; [intros [= <- _]; auto|].
    intros H. eapply (chunk_loop_raises (fun e => e = IndexError \/ e = KeyError));
      [|exact H]. intros t l l' e'. apply IH.
Qed.

(** The base case of [summarize] (lines 57-61). *)
Lemma summarize_fits (lim : Z) (splitre : list rung) (text prompt : string)
    (log : list string) :
  dict_lookup model = inr lim -> ntok (prompt +:+ text) <= lim ->
  summarize text splitre prompt log
  = (inr [answer (prompt +:+ text)], log ++ [prompt +:+ text]).
Proof.
  intros Hd Hle. apply Z.leb_le in Hle.
  destruct splitre; cbn [GCM.summarize]; unfold GCM.summarize_body;
    rewrite (limit_bind lim) by exact Hd; rewrite Hle; reflexivity.
Qed.

(** Over the budget, [summarize] goes to the split path (lines 63-91). *)
Lemma summarize_over (lim : Z) (splitre : list rung) (text prompt : string)
    (log : list string) :
  dict_lookup model = inr lim -> lim < ntok (prompt +:+ text) ->
  summarize text splitre prompt log
  = match splitre with
    | [] => (inl IndexError, log)
    | r :: rest =>
        match split_parts r text with
        | [] => (inl IndexError, log)
        | p0 :: ps =>
            chunk_loop (fun t => summarize t rest prompt) lim prompt [] [p0] (ntok p0) ps log
        end
    end.
Proof.
  intros Hd Hlt. assert (E : (ntok (prompt +:+ text) <=? lim) = false) by (apply Z.leb_gt; lia).
  destruct splitre; cbn [GCM.summarize]; unfold GCM.summarize_body;
    rewrite (limit_bind lim) by exact Hd; rewrite E; [reflexivity|].
  by destruct (split_parts r text).
Qed.

Lemma summarize_frames_enough (splitre : list rung) (n : nat) (text prompt : string)
    (log : list string) :
  (length splitre < n)%nat ->
  summarize_frames n text splitre prompt log = summarize text splitre prompt log.
Proof.
  revert n text log. induction splitre as [|r rest IH]; intros [|n] text log Hn;
    simpl in Hn; try lia; [reflexivity|].
  cbn [GCM.summarize_frames GCM.summarize].
  apply summarize_body_ext. intros t l. apply IH. lia.
Qed.

(** ** The compression loop of [commit_message] *)

Lemma compress_loop_spec (lim : Z) (prompt : string) (fuel : nat) :
  dict_lookup model = inr lim ->
  forall s older log res ov log',
  compress_loop fuel prompt (layered_document (s :: older)) (String.concat sep2 s) log
    = (inr (Some (res, ov)), log') ->
  exists top older',
    compression_passes lim prompt (s :: older) log (top :: older') log' /\
    res = layered_document (top :: older') /\ ov = String.concat sep2 top.
Proof.
  intros Hd. induction fuel as [|fuel IH]; intros s older log res ov log'; [discriminate|].
  cbn [GCM.compress_loop]. rewrite (limit_bind lim) by exact Hd.
  destruct (ntok (prompt +:+ String.concat sep2 s) <=? lim) eqn:E.
  - intros [= <- <- <-]. apply Z.leb_le in E.
    exists s, older. split; [by constructor|auto].
  - apply Z.leb_gt in E. unfold bind.
    destruct (summarize (String.concat sep2 s) default_splitre compress_prompt log)
      as [[e|s'] log1] eqn:Hs; [discriminate|].
    intros H.
    change (s' ++ [more_detail] ++ layered_document (s :: older))
      with (layered_document (s' :: s :: older)) in H.
    destruct (IH s' (s :: older) log1 res ov log' H) as (top & older' & Hp & Hres & Hov).
    exists top, older'. split; [|auto].
    eapply passes_step; eauto.
Qed.

Lemma layered_document_markers (layers : list (list string)) :
  (forall s, In s layers -> ~ In more_detail s) ->
  count_occ string_dec (layered_document layers) more_detail = length layers.
Proof.
  induction layers as [|s older IH]; intros H; [reflexivity|].
  assert (Hs : count_occ string_dec s more_detail = 0%nat)
    by (apply count_occ_not_In; apply H; left; reflexivity).
  assert (IH' : count_occ string_dec (layered_document older) more_detail = length older)
    by (apply IH; intros s' Hin; apply H; right; exact Hin).
  destruct older as [|s1 older].
  - cbn [layered_document]. rewrite count_occ_cons_eq, Hs by reflexivity. reflexivity.
  - change (layered_document (s :: s1 :: older))
      with (s ++ more_detail :: layered_document (s1 :: older)).
    rewrite count_occ_app, count_occ_cons_eq, Hs, IH' by reflexivity. reflexivity.
Qed.

(** ** Claims about [summarize] and [commit_message] *)

(** C5: when [prompt + text] fits the budget, [commit_message] returns the
    answer of one LLM request on [prompt + diff] and sends nothing else,
    and [summarize] returns the one-element list of that answer; when it
    does not fit, [summarize] does not take the base case but the split
    path of lines 63-91. *)
Theorem commit_message_fits (lim : Z) :
  dict_lookup model = inr lim ->
  (forall fuel diff prompt log, ntok (prompt +:+ diff) <= lim ->
     commit_message fuel diff prompt log
     = (inr (Some (answer (prompt +:+ diff))), log ++ [prompt +:+ diff])) /\
  (forall text splitre prompt log, ntok (prompt +:+ text) <= lim ->
     summarize text splitre prompt log
     = (inr [answer (prompt +:+ text)], log ++ [prompt +:+ text])) /\
  (forall text splitre prompt log, lim < ntok (prompt +:+ text) ->
     summarize text splitre prompt log
     = match splitre with
       | [] => (inl IndexError, log)
       | r :: rest =>
           match split_parts r text with
           | [] => (inl IndexError, log)
           | p0 :: ps =>
               chunk_loop (fun t => summarize t rest prompt) lim prompt [] [p0]
                 (ntok p0) ps log
           end
       end).
Proof.
  intros Hd. split; [|split].
  - intros fuel diff prompt log Hle. apply Z.leb_le in Hle.
    unfold GCM.commit_message. rewrite (limit_bind lim) by exact Hd.
    rewrite Hle. reflexivity.
  - intros. by apply (summarize_fits lim).
  - intros. by apply (summarize_over lim).
Qed.

(** C6: the loop of lines 75-90 groups the parts greedily.  The chunks,
    concatenated, give back the parts in order; no chunk is empty; inside
    a chunk every part was added while the running total plus that part
    stayed under the budget; a chunk was closed because its total plus the
    next part reaches the budget.  The loop flushes the chunks in this
    order.  Parts of 5, 5 and 5 tokens with a budget of 12 are grouped as
    [[p0; p1]; [p2]]. *)
Theorem chunk_assembly_greedy :
  (forall lim parts,
     List.concat (chunks_of lim parts) = parts /\
     Forall (fun c => c <> []) (chunks_of lim parts) /\
     Forall (sum_lt_within lim) (chunks_of lim parts) /\
     closed_at_budget lim (chunks_of lim parts)) /\
  (forall rec lim prompt p0 rest log,
     chunk_loop rec lim prompt [] [p0] (ntok p0) rest log
     = flush_all rec lim prompt [] (removelast (chunks_of lim (p0 :: rest))) log) /\
  (forall p0 p1 p2, ntok p0 = 5 -> ntok p1 = 5 -> ntok p2 = 5 ->
     chunks_of 12 [p0; p1; p2] = [[p0; p1]; [p2]]).
Proof.
  split; [|split].
  - intros. apply chunks_of_spec.
  - intros rec lim prompt p0 rest log. rewrite chunk_loop_assemble.
    unfold GCM.chunks_of.
    destruct (assemble lim [p0] (ntok p0) rest) as [cl op].
    by rewrite removelast_last.
  - intros p0 p1 p2 H0 H1 H2. unfold GCM.chunks_of, GCM.assemble.
    rewrite H0, H1, H2. reflexivity.
Qed.

(** C7: the recursive call of [summarize] (line 85) gets [splitre[1:]],
    the ladder without its first pattern, so a call with a ladder of
    length k needs at most k + 1 nested frames: k recursive calls. *)
Theorem summarize_depth_bound :
  (forall r rest text prompt,
     summarize text (r :: rest) prompt
     = summarize_body (Some (r, fun t => summarize t rest prompt)) text prompt) /\
  (forall splitre text prompt log,
     summarize_frames (S (length splitre)) text splitre prompt log
     = summarize text splitre prompt log).
Proof.
  split; [reflexivity|].
  intros. apply summarize_frames_enough. lia.
Qed.

(** C3 (as the code has it): there is no [BudgetExhaustedError].  Called
    with an empty ladder on a text over the budget, [summarize] raises
    [IndexError] (from [splitre[0]]) before any LLM request; the only
    exceptions [summarize] raises are [IndexError] and the [KeyError] of an
    unregistered model. *)
Theorem summarize_ladder_exhausted :
  (forall lim text prompt log,
     dict_lookup model = inr lim -> lim < ntok (prompt +:+ text) ->
     summarize text [] prompt log = (inl IndexError, log)) /\
  (forall splitre text prompt log e log',
     summarize text splitre prompt log = (inl e, log') ->
     e = IndexError \/ e = KeyError).
Proof.
  split.
  - intros lim text prompt log Hd Hlt. by rewrite (summarize_over lim).
  - intros until log'. apply summarize_raises.
Qed.

(** C10: over the budget, when the current pattern leaves the text in
    one part, [summarize] returns no summary, sends no request and raises
    nothing. *)
Theorem summarize_single_part_empty (lim : Z) (r : rung) (rest : list rung)
    (text prompt p : string) (log : list string) :
  dict_lookup model = inr lim -> lim < ntok (prompt +:+ text) ->
  split_parts r text = [p] ->
  summarize text (r :: rest) prompt log = (inr [], log).
Proof.
  intros Hd Hlt Hp. rewrite (summarize_over lim) by assumption.
  rewrite Hp. reflexivity.
Qed.

(** C9: when the diff does not fit, the document is the answer to
    [prompt + joined newest layer], then the layers newest first, each
    followed by a "## More Detail" heading (the first layer is preceded by
    one), all joined with blank lines.  The first layer is the summary of
    the diff; another pass runs exactly while the joined newest layer does
    not fit with [prompt]; the last request is the final one.  With no
    summary equal to the heading, there are as many headings as passes. *)
Theorem commit_message_layers (lim : Z) (fuel : nat) (diff prompt doc : string)
    (log log' : list string) :
  dict_lookup model = inr lim -> lim < ntok (prompt +:+ diff) ->
  commit_message fuel diff prompt log = (inr (Some doc), log') ->
  exists s0 log0 top older log1,
    summarize diff default_splitre detail_prompt log = (inr s0, log0) /\
    compression_passes lim prompt [s0] log0 (top :: older) log1 /\
    log' = log1 ++ [prompt +:+ String.concat sep2 top] /\
    doc = String.concat sep2
            (answer (prompt +:+ String.concat sep2 top) :: layered_document (top :: older)) /\
    ((forall s, In s (top :: older) -> ~ In more_detail s) ->
     count_occ string_dec (layered_document (top :: older)) more_detail
     = length (top :: older)).
Proof.
  intros Hd Hlt. assert (E : (ntok (prompt +:+ diff) <=? lim) = false) by (apply Z.leb_gt; lia).
  unfold GCM.commit_message. rewrite (limit_bind lim) by exact Hd. rewrite E.
  unfold bind at 1.
  destruct (summarize diff default_splitre detail_prompt log) as [[e|s0] log0] eqn:Hs;
    [discriminate|].
  change ([more_detail] ++ s0) with (layered_document [s0]).
  unfold bind at 1.
  destruct (compress_loop fuel prompt (layered_document [s0]) (String.concat sep2 s0) log0)
    as [[e|[[res ov]|]] log1] eqn:Hc; try discriminate.
  intros [= <- <-].
  destruct (compress_loop_spec lim prompt fuel Hd s0 [] log0 res ov log1 Hc)
    as (top & older & Hp & -> & ->).
  exists s0, log0, top, older, log1. repeat split; auto.
  apply layered_document_markers.
Qed.

End Proofs.

(** ** Claims about the splitting and the budget table *)

(** C2 (as the code has it): for the [^(diff )] and [^$] patterns, the
    parts built by lines 64-73 concatenate back to the text. *)
Theorem split_parts_concat (s : string) :
  String.concat "" (split_parts DiffHeader s) = s /\
  String.concat "" (split_parts BlankLine s) = s.
Proof.
  unfold split_parts, re_split. rewrite !recombine_concat.
  split; [apply split_diff_concat|apply split_blank_concat].
Qed.

(** C4 (as the code has it): [max_token_count] gives 8192 for gpt-4 and
    4097 for gpt-3.5-turbo; any other name raises [KeyError], which
    [commit_message] raises at once, before any LLM request. *)
Theorem max_token_count_lookup :
  dict_lookup "gpt-4" = inr 8192 /\
  dict_lookup "gpt-3.5-turbo" = inr 4097 /\
  (forall name, name <> "gpt-4" -> name <> "gpt-3.5-turbo" ->
     dict_lookup name = inl KeyError) /\
  (forall get_num_tokens answer name fuel diff prompt log,
     dict_lookup name = inl KeyError ->
     commit_message get_num_tokens answer name fuel diff prompt log = (inl KeyError, log)).
Proof.
  split; [reflexivity|]. split; [reflexivity|]. split.
  - intros name H1 H2. unfold dict_lookup, max_token_count.
    rewrite lookup_insert_ne by congruence. rewrite lookup_insert_ne by congruence.
    rewrite lookup_empty. reflexivity.
  - intros get_num_tokens answer name fuel diff prompt log H.
    unfold commit_message. by apply limit_error.
Qed.

(** ** More of the splitting (lines 64-73) *)

Lemma push_not_nil (c : ascii) (ps : list string) : push c ps <> [].
Proof. destruct ps; discriminate. Qed.

Lemma snoc_not_nil (l : list string) (x : string) : l ++ [x] <> [].
Proof. intros H. apply app_eq_nil in H as [_ H]. discriminate. Qed.

Lemma re_split_not_nil (r : rung) (s : string) : re_split r s <> [].
Proof.
  destruct r; cbn [re_split].
  - destruct s as [|c s']; [discriminate|]. cbn [split_diff].
    destruct s' as [|c1 [|c2 [|c3 [|c4 rest]]]]; try apply push_not_nil.
    destruct (_ && _); [discriminate|apply push_not_nil].
  - destruct s as [|c s']; [discriminate|]. cbn [split_blank].
    destruct (_ && _); [discriminate|apply push_not_nil].
  - destruct s as [|c s']; [discriminate|]. cbn [split_nl].
    destruct (Ascii.eqb _ _); [discriminate|apply push_not_nil].
Qed.

Lemma fold_left_not_nil {B} (f : list string -> B -> list string) (l : list B)
    (acc : list string) :
  (forall acc b, f acc b <> []) -> acc <> [] -> fold_left f l acc <> [].
Proof. intros Hf. revert acc. induction l; intros acc Hacc; simpl; auto. Qed.

Lemma recombine_not_nil (r : rung) (parts : list string) :
  parts <> [] -> recombine r parts <> [].
Proof.
  intros Hp. unfold recombine. destruct parts as [|p ps]; [contradiction|].
  cbn [fold_left]. apply fold_left_not_nil.
  - intros acc b. destruct (_ || _); [apply snoc_not_nil|].
    destruct acc; [discriminate|apply snoc_not_nil].
  - rewrite bool_decide_true by reflexivity. rewrite orb_true_r. discriminate.
Qed.

Lemma split_parts_not_nil (r : rung) (text : string) : split_parts r text <> [].
Proof. apply recombine_not_nil, re_split_not_nil. Qed.

Lemma split_nl_no_match (s : string) :
  Forall (fun p => re_match Newline p = false) (split_nl s).
Proof.
  induction s as [|c s IH]; cbn [split_nl]; [by constructor|].
  destruct (Ascii.eqb c "010") eqn:E; [by constructor|].
  destruct (split_nl s) as [|p ps]; cbn [push].
  - constructor; [exact E|constructor].
  - inversion IH; subst. constructor; [exact E|assumption].
Qed.

Lemma split_nl_concat (s : string) : String.concat "" (split_nl s) = drop_newlines s.
Proof.
  induction s as [|c s IH]; [reflexivity|]. cbn [split_nl drop_newlines].
  destruct (Ascii.eqb c "010").
  - rewrite concat0_cons. exact IH.
  - rewrite concat0_push, IH. reflexivity.
Qed.

Lemma recombine_nl (x : string) (xs : list string) :
  Forall (fun p => re_match Newline p = false) xs ->
  recombine Newline (x :: xs) = [x +:+ String.concat "" xs].
Proof.
  intros Hxs. unfold recombine. cbn [fold_left].
  rewrite bool_decide_true by reflexivity. rewrite orb_true_r. cbn [app].
  revert x. induction Hxs as [|p ps Hp Hps IH]; intros x; cbn [fold_left].
  - by rewrite str_app_nil_r.
  - rewrite Hp, bool_decide_false by discriminate. cbn [orb add_to_last removelast List.last app].
    rewrite IH, concat0_cons, str_app_assoc. reflexivity.
Qed.

(** The [\n] rung always gives one part: the text without its newlines. *)
Lemma split_parts_newline_single (s : string) :
  split_parts Newline s = [drop_newlines s].
Proof.
  unfold split_parts, re_split. pose proof (split_nl_no_match s) as H.
  pose proof (split_nl_concat s) as Hc. pose proof (re_split_not_nil Newline s) as Hn.
  cbn [re_split] in Hn.
  destruct (split_nl s) as [|x xs]; [contradiction|]. inversion H; subst.
  rewrite recombine_nl by assumption. by rewrite concat0_cons in Hc; rewrite Hc.
Qed.

Lemma prefix_app (s1 s2 q : string) :
  String.prefix s1 s2 = true -> String.prefix s1 (s2 +:+ q) = true.
Proof.
  revert s1. induction s2 as [|b s2 IH]; intros s1 H; (destruct s1 as [|a s1]; [destruct q; reflexivity|]).
  - discriminate H.
  - cbn [String.prefix String.append] in *.
    destruct (ascii_dec a b); [by apply IH|discriminate].
Qed.

Lemma recombine_diff_tail (parts acc : list string) :
  Forall (fun p => String.prefix "diff " p = true) (tl acc) ->
  Forall (fun p => String.prefix "diff " p = true)
    (tl (fold_left
       (fun combined_parts part =>
          if re_match DiffHeader part || bool_decide (combined_parts = [])
          then combined_parts ++ [part]
          else add_to_last combined_parts part) parts acc)).
Proof.
  revert acc. induction parts as [|p ps IH]; intros acc Hacc; [exact Hacc|].
  cbn [fold_left]. apply IH.
  destruct (re_match DiffHeader p || bool_decide (acc = [])) eqn:E.
  - destruct acc as [|a rest]; [constructor|]. cbn [tl app].
    rewrite bool_decide_false in E by discriminate. rewrite orb_false_r in E.
    apply Forall_app. split; [exact Hacc|constructor; [exact E|constructor]].
  - destruct acc as [|a [|r1 rs]]; [constructor|constructor|].
    cbn [add_to_last removelast List.last tl app] in *.
    assert (Hl : r1 :: rs = removelast (r1 :: rs) ++ [List.last (r1 :: rs) ""])
      by (apply app_removelast_last; discriminate).
    rewrite Hl in Hacc. apply Forall_app in Hacc as [H1 H2]. inversion H2; subst.
    change (match rs with [] => [] | _ :: _ => r1 :: removelast rs end)
      with (removelast (r1 :: rs)).
    change (match rs with [] => r1 | _ :: _ => List.last rs "" end)
      with (List.last (r1 :: rs) "").
    apply Forall_app. split; [exact H1|]. constructor; [by apply prefix_app|constructor].
Qed.


(** ** Further properties of the code *)

Section Extra.

Variable get_num_tokens : string -> Z.
Variable answer : string -> string.
Variable model : string.

Local Abbreviation ntok := get_num_tokens.
Local Abbreviation chunk_loop := (chunk_loop get_num_tokens answer).
Local Abbreviation summarize := (summarize get_num_tokens answer model).
Local Abbreviation compress_loop := (compress_loop get_num_tokens answer model).
Local Abbreviation commit_message := (commit_message get_num_tokens answer model).
Local Abbreviation request_ok := (request_ok get_num_tokens).

Lemma chunk_loop_requests (rec : string -> M (list string)) (lim : Z) (prompt : string)
    (parts summaries chunk : list string) (tc : Z) (log : list string) :
  (forall t log, exists qs, snd (rec t log) = log ++ qs /\
     Forall (request_ok lim prompt) qs /\
     forall s, fst (rec t log) = inr s -> s = map answer qs) ->
  exists qs, snd (chunk_loop rec lim prompt summaries chunk tc parts log) = log ++ qs /\
    Forall (request_ok lim prompt) qs /\
    forall s, fst (chunk_loop rec lim prompt summaries chunk tc parts log) = inr s ->
      s = summaries ++ map answer qs.
Proof.
  intros Hrec. revert summaries chunk tc log.
  induction parts as [|part parts IH]; intros summaries chunk tc log.
  - exists []. rewrite !app_nil_r. split; [reflexivity|split; [constructor|]].
    intros s [= ->]. reflexivity.
  - cbn [GCM.chunk_loop]. destruct (_ <=? _); [|apply IH].
    unfold bind, GCM.flush.
    destruct (lim <? ntok (String.concat "" chunk)) eqn:Et.
    + destruct (Hrec (String.concat "" chunk) log) as (qs1 & Hl1 & Hf1 & Hs1).
      destruct (rec (String.concat "" chunk) log) as [[e|s1] log1]; cbn [fst snd] in *.
      * exists qs1. split; [exact Hl1|split; [exact Hf1|discriminate]].
      * destruct (IH (summaries ++ s1) [part] (sum_tokens get_num_tokens [] + ntok part) log1)
          as (qs2 & Hl2 & Hf2 & Hs2).
        exists (qs1 ++ qs2). split; [by rewrite Hl2, Hl1, app_assoc|].
        split; [by apply Forall_app|].
        intros s Hs. rewrite (Hs2 s Hs), (Hs1 s1 eq_refl), map_app, app_assoc. reflexivity.
    + cbv [bind GCM.ask ret].
      destruct (IH (summaries ++ [answer (prompt +:+ String.concat "" chunk)]) [part]
                  (sum_tokens get_num_tokens [] + ntok part)
                  (log ++ [prompt +:+ String.concat "" chunk]))
        as (qs2 & Hl2 & Hf2 & Hs2).
      exists ((prompt +:+ String.concat "" chunk) :: qs2).
      split; [by rewrite Hl2, <- app_assoc|]. split.
      * constructor; [|exact Hf2]. exists (String.concat "" chunk).
        split; [reflexivity|right]. apply Z.ltb_ge. exact Et.
      * intros s Hs. rewrite (Hs2 s Hs), <- app_assoc. reflexivity.
Qed.

Lemma summarize_requests_aux (lim : Z) :
  dict_lookup model = inr lim ->
  forall splitre text prompt log,
  exists qs, snd (summarize text splitre prompt log) = log ++ qs /\
    Forall (request_ok lim prompt) qs /\
    forall s, fst (summarize text splitre prompt log) = inr s -> s = map answer qs.
Proof.
  intros Hd splitre. induction splitre as [|r rest IH]; intros text prompt log;
    (destruct (Z_le_gt_dec (ntok (prompt +:+ text)) lim) as [Hle|Hgt];
     [rewrite (summarize_fits get_num_tokens answer model lim) by assumption;
      exists [prompt +:+ text]; split; [reflexivity|split];
      [constructor; [exists text; auto|constructor]|intros s [= <-]; reflexivity]|]);
    rewrite (summarize_over get_num_tokens answer model lim) by (auto; lia).
  - exists []. rewrite app_nil_r. split; [reflexivity|split; [constructor|discriminate]].
  - destruct (split_parts r text) as [|p0 ps].
    + exists []. rewrite app_nil_r. split; [reflexivity|split; [constructor|discriminate]].
    + destruct (chunk_loop_requests (fun t => summarize t rest prompt) lim prompt ps [] [p0]
                  (ntok p0) log) as (qs & Hl & Hf & Hs); [intros t l; apply IH|].
      exists qs. split; [exact Hl|split; [exact Hf|exact Hs]].
Qed.

(** A ladder that ends with the [\n] rung never raises: that rung always
    gives one part, so no chunk goes further down the ladder. *)
Lemma summarize_newline_ladder_ok (lim : Z) (pre : list rung) :
  dict_lookup model = inr lim ->
  forall text prompt log e log',
  summarize text (pre ++ [Newline]) prompt log <> (inl e, log').
Proof.
  intros Hd. induction pre as [|r pre IH]; intros text prompt log e log';
    (destruct (Z_le_gt_dec (ntok (prompt +:+ text)) lim) as [Hle|Hgt];
     [rewrite (summarize_fits get_num_tokens answer model lim) by assumption; discriminate|]);
    rewrite (summarize_over get_num_tokens answer model lim) by (auto; lia);
    cbn [app].
  - rewrite split_parts_newline_single. discriminate.
  - pose proof (split_parts_not_nil r text) as Hn.
    destruct (split_parts r text) as [|p0 ps]; [contradiction|].
    intros H. eapply (chunk_loop_raises get_num_tokens answer (fun _ => False)); [|exact H].
    intros t l l' e' Ht. exact (IH t prompt l e' l' Ht).
Qed.

Lemma compress_loop_ok (lim : Z) :
  dict_lookup model = inr lim ->
  forall fuel prompt result overall log e log',
  compress_loop fuel prompt result overall log <> (inl e, log').
Proof.
  intros Hd fuel. induction fuel as [|fuel IH]; intros prompt result overall log e log';
    [discriminate|].
  cbn [GCM.compress_loop]. rewrite (limit_bind model lim) by exact Hd.
  destruct (_ <=? _); [discriminate|]. unfold bind.
  destruct (summarize overall default_splitre compress_prompt log) as [[e'|s] log1] eqn:Hs.
  - exfalso. exact (summarize_newline_ladder_ok lim [DiffHeader; BlankLine] Hd _ _ _ _ _ Hs).
  - apply IH.
Qed.

Lemma commit_message_ok (lim : Z) :
  dict_lookup model = inr lim ->
  forall fuel diff prompt log e log',
  commit_message fuel diff prompt log <> (inl e, log').
Proof.
  intros Hd fuel diff prompt log e log'. unfold GCM.commit_message.
  rewrite (limit_bind model lim) by exact Hd.
  destruct (_ <=? _); [discriminate|]. unfold bind.
  destruct (summarize diff default_splitre detail_prompt log) as [[e'|s] log1] eqn:Hs.
  { exfalso. exact (summarize_newline_ladder_ok lim [DiffHeader; BlankLine] Hd _ _ _ _ _ Hs). }
  pose proof (compress_loop_ok lim Hd fuel prompt ([more_detail] ++ s) (String.concat sep2 s) log1)
    as Hc.
  destruct (compress_loop fuel prompt _ _ log1) as [[e''|[[res ov]|]] log2];
    [exfalso; exact (Hc _ _ eq_refl)|discriminate|discriminate].
Qed.

(** X1: every request [summarize] sends is its prompt followed by a text
    that fits the budget on its own or with the prompt; the requests are
    appended to the log, also when an exception is raised, and the
    summaries returned are the replies to them, in the order sent. *)
Theorem summarize_requests (lim : Z) (splitre : list rung) (text prompt : string)
    (log : list string) :
  dict_lookup model = inr lim ->
  exists qs, snd (summarize text splitre prompt log) = log ++ qs /\
    Forall (request_ok lim prompt) qs /\
    forall s, fst (summarize text splitre prompt log) = inr s -> s = map answer qs.
Proof. intros Hd. apply summarize_requests_aux. exact Hd. Qed.

(** X4: with a registered model, [summarize] with a ladder whose last
    pattern is ["\n"] (the default ladder and its tails) never raises an
    exception. *)
Theorem summarize_newline_ladder_no_error (lim : Z) (pre : list rung)
    (text prompt : string) (log : list string) :
  dict_lookup model = inr lim ->
  forall e log', summarize text (pre ++ [Newline]) prompt log <> (inl e, log').
Proof. intros Hd. apply (summarize_newline_ladder_ok lim pre Hd). Qed.

(** X5: over the budget, a text that reaches the ["\n"] rung gives no
    summary and no request. *)
Theorem summarize_newline_rung_empty (lim : Z) (rest : list rung) (text prompt : string)
    (log : list string) :
  dict_lookup model = inr lim -> lim < ntok (prompt +:+ text) ->
  summarize text (Newline :: rest) prompt log = (inr [], log).
Proof.
  intros Hd Hgt. rewrite (summarize_over get_num_tokens answer model lim) by assumption.
  rewrite split_parts_newline_single. reflexivity.
Qed.

(** X6: with a registered model, [commit_message] never raises an
    exception. *)
Theorem commit_message_no_error (lim : Z) (fuel : nat) (diff prompt : string)
    (log : list string) :
  dict_lookup model = inr lim ->
  forall e log', commit_message fuel diff prompt log <> (inl e, log').
Proof. intros Hd. apply (commit_message_ok lim Hd). Qed.

(** X7: when the diff is over the budget and its summarisation gives no
    summary, the overall summary is empty: the last request is the bare
    prompt and the message is its reply followed by "## More Detail". *)
Theorem commit_message_no_summary (lim : Z) (fuel : nat) (diff prompt : string)
    (log log1 : list string) :
  dict_lookup model = inr lim ->
  lim < ntok (prompt +:+ diff) ->
  summarize diff default_splitre detail_prompt log = (inr [], log1) ->
  ntok prompt <= lim ->
  commit_message (S fuel) diff prompt log
  = (inr (Some (answer prompt +:+ sep2 +:+ more_detail)), log1 ++ [prompt]).
Proof.
  intros Hd Hgt Hs Hp. unfold GCM.commit_message.
  rewrite (limit_bind model lim) by exact Hd.
  replace (ntok (prompt +:+ diff) <=? lim) with false by (symmetry; apply Z.leb_gt; lia).
  unfold bind. rewrite Hs. cbn [GCM.compress_loop String.concat app].
  rewrite (limit_bind model lim) by exact Hd.
  rewrite str_app_nil_r. replace (ntok prompt <=? lim) with true by (symmetry; apply Z.leb_le; lia).
  cbv [ret GCM.ask]. rewrite str_app_nil_r. reflexivity.
Qed.

End Extra.

(** X2: the ["\n"] rung splits any text into a single part, the text with
    its newlines removed. *)
Theorem split_parts_newline (s : string) :
  split_parts Newline s = [drop_newlines s].
Proof. apply split_parts_newline_single. Qed.

(** X3: [parts[0]] never fails, and with [r"^(diff )"] every part after the
    first starts with "diff ". *)
Theorem split_parts_diff_headers (r : rung) (s : string) :
  split_parts r s <> [] /\
  Forall (fun p => String.prefix "diff " p = true) (tl (split_parts DiffHeader s)).
Proof.
  split; [apply split_parts_not_nil|]. apply recombine_diff_tail. constructor.
Qed.



(** ** Runs of the program on concrete inputs *)

Ltac eval_cmp := vm_compute; congruence.

(** C1: over the budget, [diff_three_files] is split into the parts
    [""], ["diff a\n"], ["diff b\n"], ["diff c"] (1000 tokens per
    character, budget 8192), grouped into three chunks; [summarize] sends
    and returns only two of them: the chunk still open when the loop of
    lines 77-90 ends is never flushed. *)
Theorem summarize_drops_last_chunk :
  chunks_of tok_k 8192 (split_parts DiffHeader diff_three_files)
  = [[""; "diff a" +:+ nl]; ["diff b" +:+ nl]; ["diff c"]] /\
  summarize tok_k echo "gpt-4" diff_three_files default_splitre detail_prompt []
  = (inr [detail_prompt +:+ "diff a" +:+ nl; detail_prompt +:+ "diff b" +:+ nl],
     [detail_prompt +:+ "diff a" +:+ nl; detail_prompt +:+ "diff b" +:+ nl]).
Proof. split; vm_compute; reflexivity. Qed.

(** C8: the chunk ["diff a\n"] is checked without the prompt (line 83):
    it fits on its own, so line 87 sends [prompt + chunk], which is over
    the budget. *)
Theorem chunk_request_over_budget :
  summarize tok_k echo "gpt-4" diff_two_files default_splitre detail_prompt []
  = (inr [detail_prompt +:+ "diff a" +:+ nl], [detail_prompt +:+ "diff a" +:+ nl]) /\
  tok_k ("diff a" +:+ nl) <= 8192 /\
  8192 < tok_k (detail_prompt +:+ "diff a" +:+ nl).
Proof. split; [vm_compute; reflexivity|split; eval_cmp]. Qed.

(** C2: the newline pattern drops the newlines and the parts are glued
    back into one, so two texts give the same parts; and a text starting
    with "diff " gets an empty first part. *)
Lemma split_parts_lossy :
  split_parts Newline ("a" +:+ nl +:+ "b") = split_parts Newline "ab" /\
  ("a" +:+ nl +:+ "b")%string <> "ab"%string /\
  In ""%string (split_parts DiffHeader "diff x").
Proof.
  split; [reflexivity|split; [discriminate|]]. left. reflexivity.
Qed.

(** C3: with an empty ladder and a text over the budget, the error is
    [IndexError]; with the default ladder, a one-line text over the budget
    gives no summary and no error. *)
Lemma ladder_exhausted_no_budget_error :
  fst (summarize tok_k echo "gpt-4" one_line [] detail_prompt []) = inl IndexError /\
  IndexError <> "BudgetExhaustedError"%string /\
  summarize tok_k echo "gpt-4" one_line default_splitre detail_prompt [] = (inr [], []).
Proof. split; [reflexivity|split; [discriminate|vm_compute; reflexivity]]. Qed.

(** C4: an unknown model name raises [KeyError]. *)
Lemma unknown_model_key_error :
  dict_lookup "gpt-5" = inl KeyError /\ KeyError <> "UnknownModelError"%string.
Proof. split; [reflexivity|discriminate]. Qed.

(** ** Witnesses *)

Lemma commit_message_fits_witness :
  dict_lookup "gpt-4" = inr 8192 /\
  commit_message tok_k echo "gpt-4" 1 "ab" "P" []
  = (inr (Some (echo ("P" +:+ "ab"))), [] ++ ["P" +:+ "ab"]).
Proof.
  split; [reflexivity|].
  apply (proj1 (commit_message_fits tok_k echo "gpt-4" 8192 eq_refl)). eval_cmp.
Defined.

Lemma chunk_assembly_greedy_witness :
  tok_len "aaaaa" = 5 /\ tok_len "bbbbb" = 5 /\ tok_len "ccccc" = 5 /\
  chunks_of tok_len 12 ["aaaaa"; "bbbbb"; "ccccc"] = [["aaaaa"; "bbbbb"]; ["ccccc"]].
Proof.
  split; [reflexivity|split; [reflexivity|split; [reflexivity|]]].
  apply (proj2 (proj2 (chunk_assembly_greedy tok_len echo))); reflexivity.
Defined.

Lemma summarize_ladder_exhausted_witness :
  dict_lookup "gpt-4" = inr 8192 /\
  8192 < tok_k (detail_prompt +:+ one_line) /\
  summarize tok_k echo "gpt-4" one_line [] detail_prompt [] = (inl IndexError, []).
Proof.
  split; [reflexivity|split; [eval_cmp|]].
  apply (proj1 (summarize_ladder_exhausted tok_k echo "gpt-4") 8192); [reflexivity|eval_cmp].
Defined.

Lemma max_token_count_lookup_witness :
  "gpt-5"%string <> "gpt-4"%string /\ "gpt-5"%string <> "gpt-3.5-turbo"%string /\
  dict_lookup "gpt-5" = inl KeyError /\
  commit_message tok_k echo "gpt-5" 1 diff_two_files "" [] = (inl KeyError, []).
Proof.
  split; [discriminate|split; [discriminate|split]].
  - apply (proj1 (proj2 (proj2 max_token_count_lookup))); discriminate.
  - apply (proj2 (proj2 (proj2 max_token_count_lookup))). reflexivity.
Defined.

Lemma summarize_single_part_empty_witness :
  dict_lookup "gpt-4" = inr 8192 /\
  8192 < tok_k (detail_prompt +:+ one_line) /\
  split_parts DiffHeader one_line = [one_line] /\
  summarize tok_k echo "gpt-4" one_line default_splitre detail_prompt [] = (inr [], []).
Proof.
  split; [reflexivity|split; [eval_cmp|split; [reflexivity|]]].
  apply (summarize_single_part_empty tok_k echo "gpt-4" 8192 DiffHeader [BlankLine; Newline]
           one_line detail_prompt one_line []); [reflexivity|eval_cmp|reflexivity].
Defined.

(** Three passes: [diff_four_files] with an LLM replying "diff x". *)
Lemma commit_message_layers_witness :
  exists doc log',
    dict_lookup "gpt-4" = inr 8192 /\
    8192 < tok_k ("" +:+ diff_four_files) /\
    commit_message tok_k reply_diff "gpt-4" 10 diff_four_files "" [] = (inr (Some doc), log') /\
    exists s0 log0 top older log1,
      summarize tok_k reply_diff "gpt-4" diff_four_files default_splitre detail_prompt []
        = (inr s0, log0) /\
      compression_passes tok_k reply_diff "gpt-4" 8192 "" [s0] log0 (top :: older) log1 /\
      log' = log1 ++ ["" +:+ String.concat sep2 top] /\
      doc = String.concat sep2
              (reply_diff ("" +:+ String.concat sep2 top) :: layered_document (top :: older)) /\
      ((forall s, In s (top :: older) -> ~ In more_detail s) ->
       count_occ string_dec (layered_document (top :: older)) more_detail
       = length (top :: older)).
Proof.
  eexists _, _.
  assert (Hrun : commit_message tok_k reply_diff "gpt-4" 10 diff_four_files "" []
                 = (inr (Some (String.concat sep2
                      ["diff x"; "diff x"; more_detail; "diff x"; "diff x"; more_detail;
                       more_detail; "diff x"; "diff x"; "diff x"])),
                    snd (commit_message tok_k reply_diff "gpt-4" 10 diff_four_files "" [])))
    by (vm_compute; reflexivity).
  split; [reflexivity|split; [eval_cmp|split; [exact Hrun|]]].
  eapply commit_message_layers; [reflexivity|eval_cmp|exact Hrun].
Defined.

Lemma summarize_requests_witness :
  dict_lookup "gpt-4" = inr 8192 /\
  exists qs,
    snd (summarize tok_k echo "gpt-4" diff_three_files default_splitre detail_prompt [])
      = [] ++ qs /\
    Forall (request_ok tok_k 8192 detail_prompt) qs /\
    forall s,
      fst (summarize tok_k echo "gpt-4" diff_three_files default_splitre detail_prompt [])
        = inr s -> s = map echo qs.
Proof.
  split; [reflexivity|].
  apply (summarize_requests tok_k echo "gpt-4" 8192). reflexivity.
Defined.

Lemma summarize_newline_ladder_no_error_witness :
  dict_lookup "gpt-4" = inr 8192 /\
  forall e log',
    summarize tok_k echo "gpt-4" diff_three_files ([DiffHeader; BlankLine] ++ [Newline])
      detail_prompt [] <> (inl e, log').
Proof.
  split; [reflexivity|].
  apply (summarize_newline_ladder_no_error tok_k echo "gpt-4" 8192). reflexivity.
Defined.

Lemma summarize_newline_rung_empty_witness :
  dict_lookup "gpt-4" = inr 8192 /\
  8192 < tok_k (detail_prompt +:+ one_line) /\
  summarize tok_k echo "gpt-4" one_line [Newline] detail_prompt [] = (inr [], []).
Proof.
  split; [reflexivity|split; [eval_cmp|]].
  apply (summarize_newline_rung_empty tok_k echo "gpt-4" 8192); [reflexivity|eval_cmp].
Defined.

Lemma commit_message_no_error_witness :
  dict_lookup "gpt-4" = inr 8192 /\
  forall e log', commit_message tok_k reply_diff "gpt-4" 3 diff_four_files "" [] <> (inl e, log').
Proof.
  split; [reflexivity|].
  apply (commit_message_no_error tok_k reply_diff "gpt-4" 8192). reflexivity.
Defined.

Lemma commit_message_no_summary_witness :
  dict_lookup "gpt-4" = inr 8192 /\
  8192 < tok_k ("P" +:+ one_line) /\
  summarize tok_k echo "gpt-4" one_line default_splitre detail_prompt [] = (inr [], []) /\
  tok_k "P" <= 8192 /\
  commit_message tok_k echo "gpt-4" 1 one_line "P" []
  = (inr (Some (echo "P" +:+ sep2 +:+ more_detail)), [] ++ ["P"%string]).
Proof.
  split; [reflexivity|split; [eval_cmp|split; [vm_compute; reflexivity|split; [eval_cmp|]]]].
  apply (commit_message_no_summary tok_k echo "gpt-4" 8192 0 one_line "P" [] []);
    [reflexivity|eval_cmp|vm_compute; reflexivity|eval_cmp].
Defined.
